(** * NEP5Token: the ledger handlers of
    [vaas/example/Data-Injection-Attack/NEP5Token.py]

    A shallow embedding of the four handlers of the contract
    ([DoTransfer], [DoTransferFrom], [DoApprove], [GetAllowance]) over
    the interop layer they call ([CheckWitness], [Get], [Put], [Delete]
    and the two registered notifications) and of the entry point [Main]
    that dispatches to them, followed by the properties of the balance /
    allowance state machine.

    Byte arrays (addresses and storage keys) are [string]s, that is
    sequences of 8-bit characters, and [concat] is their concatenation.
    Amounts are Python integers, hence unbounded: they are [Z] and the
    arithmetic is the exact one.  The contract storage is a finite map
    from keys to integers; a missing key reads as [0]. *)

From Stdlib Require Import ZArith Lia.
From stdpp Require Import base option list strings gmap fin_maps.

Open Scope Z_scope.

(** ** Interop layer *)

Abbreviation bytes := string.

(** [concat] of [DNA.builtins]: the bytes of [a] followed by those of [b]. *)
Definition concat (a b : bytes) : bytes := String.append a b.

(** Every call into the host that a handler makes, in program order. *)
Inductive syscall : Type :=
| SysCheckWitness (addr : bytes)
| SysGetContext
| SysGet (key : bytes)
| SysPut (key : bytes) (value : Z)
| SysDelete (key : bytes)
| SysNotify (name : string) (a b : bytes) (value : Z).

(** A handler runs against the storage of the contract and returns its
    result, the storage it leaves and the host calls it made. *)
Definition Contract (A : Type) : Type :=
  gmap bytes Z → A * gmap bytes Z * list syscall.

Definition result {A} (r : A * gmap bytes Z * list syscall) : A := r.1.1.
Definition store_of {A} (r : A * gmap bytes Z * list syscall) : gmap bytes Z := r.1.2.
Definition calls_of {A} (r : A * gmap bytes Z * list syscall) : list syscall := r.2.

Global Instance contract_ret : MRet Contract :=
  λ A (x : A) st, (x, st, []).

Global Instance contract_bind : MBind Contract :=
  λ A B (f : A → Contract B) (m : Contract A) st,
    let '(x, st1, l1) := m st in
    let '(y, st2, l2) := f x st1 in
    (y, st2, l1 ++ l2).

(** The handle on the storage of the running contract, the only one a
    handler can get. *)
Inductive StorageContext : Type := CurrentContext.

Definition GetContext : Contract StorageContext :=
  λ st, (CurrentContext, st, [SysGetContext]).

(** What [Get] yields for a key of a given storage. *)
Definition read (st : gmap bytes Z) (key : bytes) : Z := default 0 (st !! key).

Definition Get (context : StorageContext) (key : bytes) : Contract Z :=
  λ st, (read st key, st, [SysGet key]).

Definition Put (context : StorageContext) (key : bytes) (value : Z) : Contract unit :=
  λ st, (tt, <[key := value]> st, [SysPut key value]).

Definition Delete (context : StorageContext) (key : bytes) : Contract unit :=
  λ st, (tt, delete key st, [SysDelete key]).

(** [RegisterAction('transfer', 'from', 'to', 'amount')] *)
Definition DispatchTransferEvent (t_from t_to : bytes) (amount : Z) : Contract unit :=
  λ st, (tt, st, [SysNotify "transfer" t_from t_to amount]).

(** [RegisterAction('approval', 'owner', 'spender', 'value')] *)
Definition DispatchApproveEvent (t_owner t_spender : bytes) (amount : Z) : Contract unit :=
  λ st, (tt, st, [SysNotify "approval" t_owner t_spender amount]).

(** ** Handlers *)

Section Handlers.

(** The witness check of the host, for the invocation at hand. *)
Variable witness : bytes → bool.

Definition CheckWitness (addr : bytes) : Contract bool :=
  λ st, (witness addr, st, [SysCheckWitness addr]).

Definition DoTransfer (t_from t_to : bytes) (amount : Z) : Contract bool :=
  if amount <=? 0 then mret false else
  from_is_sender ← CheckWitness t_from;
  if negb from_is_sender then mret false else
  if bool_decide (t_from = t_to) then mret true else
  context ← GetContext;
  from_val ← Get context t_from;
  if from_val <? amount then mret false else
  _ ← (if from_val =? amount then Delete context t_from
       else let difference := from_val - amount in
            Put context t_from difference);
  to_value ← Get context t_to;
  let to_total := to_value + amount in
  _ ← Put context t_to to_total;
  _ ← DispatchTransferEvent t_from t_to amount;
  mret true.

Definition DoTransferFrom (t_from t_to : bytes) (amount : Z) : Contract bool :=
  if amount <=? 0 then mret false else
  context ← GetContext;
  let allowance_key := concat t_from t_to in
  available_to_to_addr ← Get context allowance_key;
  if available_to_to_addr <? amount then mret false else
  from_balance ← Get context t_from;
  if from_balance <? amount then mret false else
  to_balance ← Get context t_to;
  let new_from_balance := from_balance - amount in
  let new_to_balance := to_balance + amount in
  let new_allowance := available_to_to_addr - amount in
  _ ← Put context allowance_key new_allowance;
  _ ← Put context t_to new_to_balance;
  _ ← Put context t_from new_from_balance;
  _ ← DispatchTransferEvent t_from t_to amount;
  mret true.

Definition DoApprove (t_owner t_spender : bytes) (amount : Z) : Contract bool :=
  owner_is_sender ← CheckWitness t_owner;
  if negb owner_is_sender then mret false else
  context ← GetContext;
  from_balance ← Get context t_owner;
  if from_balance >=? amount then
    let approval_key := concat t_owner t_spender in
    current_approved_balance ← Get context approval_key;
    let new_approved_balance := current_approved_balance + amount in
    _ ← Put context approval_key new_approved_balance;
    _ ← DispatchApproveEvent t_owner t_spender amount;
    mret true
  else mret false.

Definition GetAllowance (t_owner t_spender : bytes) : Contract Z :=
  context ← GetContext;
  let allowance_key := concat t_owner t_spender in
  amount ← Get context allowance_key;
  mret amount.

End Handlers.

(** ** Observations on a storage and on a run *)

(** The balance record of an address and the allowance record of a pair. *)
Definition balance (st : gmap bytes Z) (addr : bytes) : Z := read st addr.
Definition allowance (st : gmap bytes Z) (t_owner t_spender : bytes) : Z :=
  read st (concat t_owner t_spender).

(** The sum of every value the storage holds. *)
Definition store_total (st : gmap bytes Z) : Z :=
  map_fold (λ _ v acc, v + acc) 0 st.

(** The sum of the balances of the given accounts. *)
Definition supply_over (accounts : list bytes) (st : gmap bytes Z) : Z :=
  foldr (λ a acc, balance st a + acc) 0 accounts.

Definition is_write (c : syscall) : bool :=
  match c with SysPut _ _ | SysDelete _ => true | _ => false end.
Definition is_delete (c : syscall) : bool :=
  match c with SysDelete _ => true | _ => false end.
Definition is_notify (c : syscall) : bool :=
  match c with SysNotify _ _ _ _ => true | _ => false end.
Definition is_witness_check (c : syscall) : bool :=
  match c with SysCheckWitness _ => true | _ => false end.

Definition writes (l : list syscall) : list syscall := List.filter is_write l.
Definition events (l : list syscall) : list syscall := List.filter is_notify l.
Definition witness_checks (l : list syscall) : list syscall :=
  List.filter is_witness_check l.

(** ** Entry point *)

(** What [Main] hands back: the boolean of a handler, the integer of
    [GetAllowance], or the string it answers to an operation it does not
    know. *)
Inductive outcome : Type :=
| OutBool (b : bool)
| OutInt (z : Z)
| OutStr (s : string).

Section EntryPoint.

Variable witness : bytes → bool.

(** The elements of [args] are items of the host, passed on untyped: how
    a handler reads one as a byte array or as an integer is the host's. *)
Variable item : Type.
Variable as_bytes : item → bytes.
Variable as_int : item → Z.

Definition Main (operation : string) (args : list item) : Contract outcome :=
  if bool_decide (operation = "transfer") then
    match args with
    | [t_from; t_to; t_amount] =>
        transfer ← DoTransfer witness (as_bytes t_from) (as_bytes t_to)
                     (as_int t_amount);
        mret (OutBool transfer)
    | _ => mret (OutBool false)
    end
  else if bool_decide (operation = "transferFrom") then
    match args with
    | [t_from; t_to; t_amount] =>
        transfer ← DoTransferFrom (as_bytes t_from) (as_bytes t_to)
                     (as_int t_amount);
        mret (OutBool transfer)
    | _ => mret (OutBool false)
    end
  else if bool_decide (operation = "approve") then
    match args with
    | [t_owner; t_spender; t_amount] =>
        approve ← DoApprove witness (as_bytes t_owner) (as_bytes t_spender)
                    (as_int t_amount);
        mret (OutBool approve)
    | _ => mret (OutBool false)
    end
  else if bool_decide (operation = "allowance") then
    match args with
    | [t_owner; t_spender] =>
        amount ← GetAllowance (as_bytes t_owner) (as_bytes t_spender);
        mret (OutInt amount)
    | _ => mret (OutBool false)
    end
  else mret (OutStr "unknown operation").

End EntryPoint.

(** Every record of a storage is at least zero. *)
Definition records_nonneg (st : gmap bytes Z) : Prop := ∀ k, 0 <= read st k.

(** ** Reading a storage after a write *)

Lemma read_insert_eq (st : gmap bytes Z) k v : read (<[k := v]> st) k = v.
Proof. unfold read. by rewrite lookup_insert_eq. Qed.

Lemma read_insert_ne (st : gmap bytes Z) k k' v :
  k ≠ k' → read (<[k := v]> st) k' = read st k'.
Proof. intros Hne. unfold read. by rewrite lookup_insert_ne. Qed.

Lemma read_delete_eq (st : gmap bytes Z) k : read (delete k st) k = 0.
Proof. unfold read. by rewrite lookup_delete_eq. Qed.

Lemma read_delete_ne (st : gmap bytes Z) k k' :
  k ≠ k' → read (delete k st) k' = read st k'.
Proof. intros Hne. unfold read. by rewrite lookup_delete_ne. Qed.

Lemma read_empty k : read ∅ k = 0.
Proof. unfold read. by rewrite lookup_empty. Qed.

(** ** The total of a storage after a write *)

Lemma store_total_swap (j1 j2 : bytes) (z1 z2 y : Z) :
  z1 + (z2 + y) = z2 + (z1 + y).
Proof. lia. Qed.

Lemma store_total_fresh (st : gmap bytes Z) k v :
  st !! k = None → store_total (<[k := v]> st) = v + store_total st.
Proof.
  intros Hk. unfold store_total.
  rewrite map_fold_insert_L; [done | | done].
  intros. apply store_total_swap; done.
Qed.

Lemma store_total_delete (st : gmap bytes Z) k :
  store_total (delete k st) = store_total st - read st k.
Proof.
  unfold read. destruct (st !! k) as [x|] eqn:Hk; simpl.
  - unfold store_total.
    rewrite (map_fold_delete_L _ _ k x st); [lia | | done].
    intros. apply store_total_swap; done.
  - rewrite delete_id by done. lia.
Qed.

Lemma store_total_insert (st : gmap bytes Z) k v :
  store_total (<[k := v]> st) = store_total st - read st k + v.
Proof.
  rewrite <- insert_delete_eq, store_total_fresh by apply lookup_delete_eq.
  rewrite store_total_delete. lia.
Qed.

(** ** The runs of [DoTransfer], path by path *)

Ltac unfold_handler :=
  unfold DoTransfer, DoTransferFrom, DoApprove, GetAllowance,
    CheckWitness, GetContext, Get, Put, Delete, DispatchTransferEvent,
    DispatchApproveEvent, mbind, mret, contract_bind, contract_ret.

Ltac decide_tests :=
  repeat match goal with
  | |- context [?a <=? ?b] => destruct (Z.leb_spec a b); try lia
  | |- context [?a <? ?b] => destruct (Z.ltb_spec a b); try lia
  | |- context [?a =? ?b] => destruct (Z.eqb_spec a b); try lia
  | |- context [?a >=? ?b] => rewrite (Z.geb_leb a b)
  | |- context [bool_decide (?a = ?b)] =>
      destruct (bool_decide_reflect (a = b)); try congruence
  end.

Ltac run_handler :=
  unfold_handler;
  repeat match goal with
  | Hw : ?w ?a = _ |- context [?w ?a] => rewrite Hw
  end;
  repeat (progress (decide_tests; simpl)).

Section TransferPaths.

Variable witness : bytes → bool.
Variables (t_from t_to : bytes) (amount : Z) (st : gmap bytes Z).

Lemma DoTransfer_nonpositive :
  amount <= 0 → DoTransfer witness t_from t_to amount st = (false, st, []).
Proof. intros. by run_handler. Qed.

Lemma DoTransfer_unauthorized :
  0 < amount → witness t_from = false →
  DoTransfer witness t_from t_to amount st
  = (false, st, [SysCheckWitness t_from]).
Proof. intros ? Hw. by run_handler. Qed.

Lemma DoTransfer_self :
  0 < amount → witness t_from = true → t_from = t_to →
  DoTransfer witness t_from t_to amount st
  = (true, st, [SysCheckWitness t_from]).
Proof.
  intros ? Hw ?. by run_handler.
Qed.

Lemma DoTransfer_insufficient :
  0 < amount → witness t_from = true → t_from ≠ t_to →
  read st t_from < amount →
  DoTransfer witness t_from t_to amount st
  = (false, st, [SysCheckWitness t_from; SysGetContext; SysGet t_from]).
Proof.
  intros ? Hw ? ?. by run_handler.
Qed.

Lemma DoTransfer_exact :
  0 < amount → witness t_from = true → t_from ≠ t_to →
  read st t_from = amount →
  DoTransfer witness t_from t_to amount st
  = (true,
     <[t_to := read st t_to + amount]> (delete t_from st),
     [SysCheckWitness t_from; SysGetContext; SysGet t_from; SysDelete t_from;
      SysGet t_to; SysPut t_to (read st t_to + amount);
      SysNotify "transfer" t_from t_to amount]).
Proof.
  intros ? Hw ? ?. run_handler. by rewrite read_delete_ne.
Qed.

Lemma DoTransfer_partial :
  0 < amount → witness t_from = true → t_from ≠ t_to →
  amount < read st t_from →
  DoTransfer witness t_from t_to amount st
  = (true,
     <[t_to := read st t_to + amount]>
       (<[t_from := read st t_from - amount]> st),
     [SysCheckWitness t_from; SysGetContext; SysGet t_from;
      SysPut t_from (read st t_from - amount);
      SysGet t_to; SysPut t_to (read st t_to + amount);
      SysNotify "transfer" t_from t_to amount]).
Proof.
  intros ? Hw ? ?. run_handler. by rewrite read_insert_ne.
Qed.

(** The six paths above are all there is: a run of [DoTransfer] that
    answers [true] between two different addresses went through the
    checks on the amount, the witness and the balance. *)
Lemma DoTransfer_true_inv :
  t_from ≠ t_to →
  result (DoTransfer witness t_from t_to amount st) = true →
  0 < amount ∧ witness t_from = true ∧ amount <= read st t_from.
Proof.
  intros Hne Hres.
  destruct (Z.leb_spec amount 0) as [Hle|Hpos].
  { by rewrite DoTransfer_nonpositive in Hres. }
  destruct (witness t_from) eqn:Hw.
  2: { by rewrite DoTransfer_unauthorized in Hres. }
  destruct (Z.ltb_spec (read st t_from) amount) as [Hlt|Hge].
  { by rewrite DoTransfer_insufficient in Hres. }
  done.
Qed.

End TransferPaths.

(** ** The runs of [DoTransferFrom], path by path *)

Section TransferFromPaths.

Variables (t_from t_to : bytes) (amount : Z) (st : gmap bytes Z).

Lemma DoTransferFrom_nonpositive :
  amount <= 0 → DoTransferFrom t_from t_to amount st = (false, st, []).
Proof. intros. by run_handler. Qed.

Lemma DoTransferFrom_not_approved :
  0 < amount → read st (concat t_from t_to) < amount →
  DoTransferFrom t_from t_to amount st
  = (false, st, [SysGetContext; SysGet (concat t_from t_to)]).
Proof. intros. by run_handler. Qed.

Lemma DoTransferFrom_insufficient :
  0 < amount → amount <= read st (concat t_from t_to) →
  read st t_from < amount →
  DoTransferFrom t_from t_to amount st
  = (false, st, [SysGetContext; SysGet (concat t_from t_to); SysGet t_from]).
Proof. intros. by run_handler. Qed.

Lemma DoTransferFrom_success :
  0 < amount → amount <= read st (concat t_from t_to) →
  amount <= read st t_from →
  DoTransferFrom t_from t_to amount st
  = (true,
     <[t_from := read st t_from - amount]>
       (<[t_to := read st t_to + amount]>
          (<[concat t_from t_to := read st (concat t_from t_to) - amount]> st)),
     [SysGetContext; SysGet (concat t_from t_to); SysGet t_from; SysGet t_to;
      SysPut (concat t_from t_to) (read st (concat t_from t_to) - amount);
      SysPut t_to (read st t_to + amount);
      SysPut t_from (read st t_from - amount);
      SysNotify "transfer" t_from t_to amount]).
Proof. intros. by run_handler. Qed.

Lemma DoTransferFrom_true_inv :
  result (DoTransferFrom t_from t_to amount st) = true →
  0 < amount ∧ amount <= read st (concat t_from t_to)
  ∧ amount <= read st t_from.
Proof.
  intros Hres.
  destruct (Z.leb_spec amount 0) as [Hle|Hpos].
  { by rewrite DoTransferFrom_nonpositive in Hres. }
  destruct (Z.ltb_spec (read st (concat t_from t_to)) amount) as [Hlt|Hge].
  { by rewrite DoTransferFrom_not_approved in Hres. }
  destruct (Z.ltb_spec (read st t_from) amount) as [Hlt|Hge'].
  { by rewrite DoTransferFrom_insufficient in Hres. }
  done.
Qed.

End TransferFromPaths.

(** ** The runs of [DoApprove] and [GetAllowance] *)

Section ApprovePaths.

Variable witness : bytes → bool.
Variables (t_owner t_spender : bytes) (amount : Z) (st : gmap bytes Z).

Lemma DoApprove_unauthorized :
  witness t_owner = false →
  DoApprove witness t_owner t_spender amount st
  = (false, st, [SysCheckWitness t_owner]).
Proof. intros Hw. by run_handler. Qed.

Lemma DoApprove_over_balance :
  witness t_owner = true → read st t_owner < amount →
  DoApprove witness t_owner t_spender amount st
  = (false, st, [SysCheckWitness t_owner; SysGetContext; SysGet t_owner]).
Proof. intros Hw ?. by run_handler. Qed.

Lemma DoApprove_success :
  witness t_owner = true → amount <= read st t_owner →
  DoApprove witness t_owner t_spender amount st
  = (true,
     <[concat t_owner t_spender
         := read st (concat t_owner t_spender) + amount]> st,
     [SysCheckWitness t_owner; SysGetContext; SysGet t_owner;
      SysGet (concat t_owner t_spender);
      SysPut (concat t_owner t_spender)
             (read st (concat t_owner t_spender) + amount);
      SysNotify "approval" t_owner t_spender amount]).
Proof. intros Hw ?. by run_handler. Qed.

Lemma GetAllowance_run :
  GetAllowance t_owner t_spender st
  = (allowance st t_owner t_spender, st, [SysGetContext; SysGet (concat t_owner t_spender)]).
Proof. done. Qed.

End ApprovePaths.

(** ** The supply held by a set of accounts *)

Lemma supply_over_frame accounts (st st' : gmap bytes Z) :
  (∀ a, a ∈ accounts → balance st' a = balance st a) →
  supply_over accounts st' = supply_over accounts st.
Proof.
  induction accounts as [|a accounts IH]; intros Hsame; simpl; [done|].
  rewrite Hsame by apply list_elem_of_here.
  rewrite IH; [done|]. intros b Hb. apply Hsame. by apply list_elem_of_further.
Qed.

Lemma supply_over_change accounts (st st' : gmap bytes Z) k :
  NoDup accounts → k ∈ accounts →
  (∀ a, a ≠ k → balance st' a = balance st a) →
  supply_over accounts st' = supply_over accounts st - balance st k + balance st' k.
Proof.
  intros Hnd Hk Hsame.
  induction Hnd as [|a accounts Hnotin Hnd IH]; simpl.
  { by apply elem_of_nil in Hk. }
  apply elem_of_cons in Hk as [->|Hk].
  - rewrite (supply_over_frame accounts st st'); [lia|].
    intros b Hb. apply Hsame. by intros ->.
  - rewrite IH by done. rewrite (Hsame a); [lia|]. by intros ->.
Qed.

(** ** Direct transfer between two accounts *)

(** C1. Every successful transfer between two different addresses takes
    [amount] out of the balance of [t_from], adds it to the balance of
    [t_to], and leaves the sum of the balances unchanged: the sum of all
    the values of the storage, and the sum over any set of accounts that
    holds both addresses. *)
Theorem DoTransfer_moves_amount witness t_from t_to amount st :
  t_from ≠ t_to →
  result (DoTransfer witness t_from t_to amount st) = true →
  let st' := store_of (DoTransfer witness t_from t_to amount st) in
  balance st' t_from + amount = balance st t_from
  ∧ balance st' t_to = balance st t_to + amount
  ∧ store_total st' = store_total st
  ∧ ∀ accounts, NoDup accounts → t_from ∈ accounts → t_to ∈ accounts →
      supply_over accounts st' = supply_over accounts st.
Proof.
  intros Hne Hres.
  destruct (DoTransfer_true_inv _ _ _ _ _ Hne Hres) as (Hpos & Hw & Hge).
  destruct (Z.eq_dec (read st t_from) amount) as [Heq|Hneq].
  - rewrite (DoTransfer_exact witness t_from t_to amount st) by done.
    unfold store_of, balance; simpl.
    rewrite read_insert_ne, read_delete_eq, read_insert_eq by done.
    repeat split; try lia.
    + rewrite store_total_insert, read_delete_ne, store_total_delete by done.
      lia.
    + intros accounts Hnd Hf Ht.
      rewrite (supply_over_change accounts (delete t_from st) _ t_to) ; try done.
      2: { intros a Ha. unfold balance. by rewrite read_insert_ne. }
      rewrite (supply_over_change accounts st (delete t_from st) t_from); try done.
      2: { intros a Ha. unfold balance. by rewrite read_delete_ne. }
      unfold balance.
      rewrite read_insert_eq, read_delete_eq, read_delete_ne by done. lia.
  - rewrite (DoTransfer_partial witness t_from t_to amount st) by (done || lia).
    unfold store_of, balance; simpl.
    rewrite read_insert_ne, !read_insert_eq by done.
    repeat split; try lia.
    + rewrite !store_total_insert, read_insert_ne by done. lia.
    + intros accounts Hnd Hf Ht.
      rewrite (supply_over_change accounts
                 (<[t_from := read st t_from - amount]> st) _ t_to); try done.
      2: { intros a Ha. unfold balance. by rewrite read_insert_ne. }
      rewrite (supply_over_change accounts st
                 (<[t_from := read st t_from - amount]> st) t_from); try done.
      2: { intros a Ha. unfold balance. by rewrite read_insert_ne. }
      unfold balance.
      rewrite !read_insert_eq, read_insert_ne by done. lia.
Qed.

Lemma DoTransfer_moves_amount_witness :
  let witness := λ a : bytes, bool_decide (a = "A") in
  let st : gmap bytes Z := <["A" := 100]> ∅ in
  let st' := store_of (DoTransfer witness "A" "B" 40 st) in
  balance st' "A" + 40 = balance st "A"
  ∧ balance st' "B" = balance st "B" + 40
  ∧ store_total st' = store_total st
  ∧ ∀ accounts, NoDup accounts → "A" ∈ accounts → "B" ∈ accounts →
      supply_over accounts st' = supply_over accounts st.
Proof.
  apply (DoTransfer_moves_amount (λ a : bytes, bool_decide (a = "A"))
           "A" "B" 40 (<["A" := 100]> ∅)).
  - discriminate.
  - reflexivity.
Defined.

(** ** Supply and the sign of allowances *)

(** C2. A delegated transfer from an account to itself does not keep the
    sum of the balances: with [balance A = 10], [balance B = 7] and an
    allowance of [5] under [concat A A], [DoTransferFrom A A 5] answers
    [true] and the balances of [A] and [B] sum to [12] where they summed
    to [17]; the total of the storage drops as well. *)
Theorem DoTransferFrom_to_self_loses_supply :
  let st : gmap bytes Z := <["AA" := 5]> (<["A" := 10]> (<["B" := 7]> ∅)) in
  let r := DoTransferFrom "A" "A" 5 st in
  result r = true
  ∧ supply_over ["A"; "B"] st = 17
  ∧ supply_over ["A"; "B"] (store_of r) = 12
  ∧ store_total st = 22
  ∧ store_total (store_of r) = 12.
Proof. vm_compute. done. Qed.

(** C3. [DoApprove] has no test on the sign of [amount]: on the empty
    storage, where every allowance is [0], the owner [A] approving [-5]
    to [B] is answered [true] and leaves the allowance of the pair at
    [-5]. *)
Theorem DoApprove_negative_amount_stored :
  let witness := λ a : bytes, bool_decide (a = "A") in
  let r := DoApprove witness "A" "B" (-5) ∅ in
  (∀ t_owner t_spender, 0 <= allowance ∅ t_owner t_spender)
  ∧ result r = true
  ∧ allowance (store_of r) "A" "B" = -5
  ∧ calls_of r = [SysCheckWitness "A"; SysGetContext; SysGet "A"; SysGet "AB";
                  SysPut "AB" (-5); SysNotify "approval" "A" "B" (-5)].
Proof.
  split.
  - intros. unfold allowance. by rewrite read_empty.
  - vm_compute. done.
Qed.

(** ** Delegated transfer and the allowance *)

(** C5. A delegated transfer whose allowance record, under
    [concat t_from t_to], is below [amount] answers [false] and changes
    nothing: same storage, no write, no notification, whatever the
    balance of [t_from]. And no run of [DoTransferFrom], failing or
    not, makes a witness check. *)
Theorem DoTransferFrom_needs_allowance t_from t_to amount st :
  let r := DoTransferFrom t_from t_to amount st in
  (allowance st t_from t_to < amount →
   result r = false ∧ store_of r = st
   ∧ writes (calls_of r) = [] ∧ events (calls_of r) = [])
  ∧ witness_checks (calls_of r) = [].
Proof.
  cbv zeta. unfold allowance.
  destruct (Z.leb_spec amount 0) as [Hle|Hpos].
  { by rewrite DoTransferFrom_nonpositive. }
  destruct (Z.ltb_spec (read st (concat t_from t_to)) amount) as [Hlt|Hge].
  { by rewrite DoTransferFrom_not_approved. }
  destruct (Z.ltb_spec (read st t_from) amount) as [Hlt|Hge'].
  { rewrite DoTransferFrom_insufficient by done. split; [lia | done]. }
  rewrite DoTransferFrom_success by done. split; [lia | done].
Qed.

Lemma DoTransferFrom_needs_allowance_witness :
  let st : gmap bytes Z := <["AB" := 29]> (<["A" := 100]> ∅) in
  let r := DoTransferFrom "A" "B" 30 st in
  30 <= balance st "A"
  ∧ result r = false ∧ store_of r = st
  ∧ writes (calls_of r) = [] ∧ events (calls_of r) = [].
Proof.
  split; [by vm_compute|].
  apply (DoTransferFrom_needs_allowance "A" "B" 30
           (<["AB" := 29]> (<["A" := 100]> ∅))).
  reflexivity.
Defined.

(** ** Failing and self-addressed direct transfers *)

(** A direct transfer from an address to itself is answered [true]
    though the balance is below the amount: [A] holds nothing and
    transfers [5] to [A], with the witness of [A]. *)
Lemma DoTransfer_to_self_without_funds :
  let r := DoTransfer (λ _, true) "A" "A" 5 ∅ in
  balance ∅ "A" < 5 ∧ result r ≠ false.
Proof. vm_compute. split; done. Qed.

(** C6 (as the code has it). A direct transfer with [amount <= 0], or
    without the witness of [t_from], or between two different addresses
    with a balance of [t_from] below [amount], answers [false] and is
    atomic: same storage, no write or delete, no notification. *)
Theorem DoTransfer_failure_atomic witness t_from t_to amount st :
  amount <= 0 ∨ witness t_from = false
  ∨ (t_from ≠ t_to ∧ balance st t_from < amount) →
  let r := DoTransfer witness t_from t_to amount st in
  result r = false ∧ store_of r = st
  ∧ writes (calls_of r) = [] ∧ events (calls_of r) = [].
Proof.
  intros Hfail. cbv zeta.
  destruct (Z.leb_spec amount 0) as [Hle|Hpos].
  { by rewrite DoTransfer_nonpositive. }
  destruct (witness t_from) eqn:Hw.
  2: { by rewrite DoTransfer_unauthorized. }
  destruct Hfail as [?|[?|[Hne Hlt]]]; [lia | done |].
  by rewrite DoTransfer_insufficient.
Qed.

Lemma DoTransfer_failure_atomic_witness :
  let witness := λ a : bytes, bool_decide (a = "A") in
  let st : gmap bytes Z := <["A" := 10]> ∅ in
  let r := DoTransfer witness "A" "B" 11 st in
  result r = false ∧ store_of r = st
  ∧ writes (calls_of r) = [] ∧ events (calls_of r) = [].
Proof.
  apply (DoTransfer_failure_atomic (λ a : bytes, bool_decide (a = "A"))
           "A" "B" 11 (<["A" := 10]> ∅)).
  right; right. split; [discriminate | reflexivity].
Defined.

(** A direct transfer from an address to itself is not always answered
    [true]: the amount [0] is refused, witness or not. *)
Lemma DoTransfer_to_self_zero_refused :
  let st : gmap bytes Z := <["A" := 10]> ∅ in
  result (DoTransfer (λ _, true) "A" "A" 0 st) ≠ true.
Proof. vm_compute. done. Qed.

(** C7 (as the code has it). A direct transfer from an address to
    itself never changes the storage, writes nothing and notifies
    nothing; it is answered [true] exactly when the amount is positive
    and the witness of the address is there. *)
Theorem DoTransfer_to_self witness t_from t_to amount st :
  t_from = t_to →
  let r := DoTransfer witness t_from t_to amount st in
  (result r = true ↔ 0 < amount ∧ witness t_from = true)
  ∧ store_of r = st
  ∧ (∀ a, balance (store_of r) a = balance st a)
  ∧ writes (calls_of r) = [] ∧ events (calls_of r) = [].
Proof.
  intros Heq. cbv zeta.
  destruct (Z.leb_spec amount 0) as [Hle|Hpos].
  { rewrite DoTransfer_nonpositive by done.
    repeat split; try done. intros [? _]; lia. }
  destruct (witness t_from) eqn:Hw.
  - rewrite DoTransfer_self by done. repeat split; done.
  - rewrite DoTransfer_unauthorized by done.
    repeat split; try done. by intros [_ ?].
Qed.

Lemma DoTransfer_to_self_witness :
  let witness := λ a : bytes, bool_decide (a = "A") in
  let st : gmap bytes Z := <["A" := 10]> ∅ in
  let r := DoTransfer witness "A" "A" 4 st in
  result r = true ∧ store_of r = st.
Proof.
  destruct (DoTransfer_to_self (λ a : bytes, bool_decide (a = "A"))
              "A" "A" 4 (<["A" := 10]> ∅) eq_refl) as (Hres & Hst & _).
  split; [|exact Hst].
  apply Hres. split; [lia | reflexivity].
Defined.

(** ** Approvals *)

(** C8. With the witness of the owner, [DoApprove] answers [false] and
    changes nothing when [amount] is above the balance of the owner,
    and otherwise writes the allowance of the pair plus [amount].
    Approving [5] and then [3], the balance sufficing at each call,
    leaves the allowance [8] above what it was: at [8] for a pair that
    had no allowance. *)
Theorem DoApprove_additive_capped witness t_owner t_spender amount st :
  witness t_owner = true →
  let r := DoApprove witness t_owner t_spender amount st in
  let r1 := DoApprove witness t_owner t_spender 5 st in
  let r2 := DoApprove witness t_owner t_spender 3 (store_of r1) in
  (balance st t_owner < amount →
   result r = false ∧ store_of r = st
   ∧ writes (calls_of r) = [] ∧ events (calls_of r) = [])
  ∧ (amount <= balance st t_owner →
     result r = true
     ∧ writes (calls_of r)
       = [SysPut (concat t_owner t_spender)
                 (allowance st t_owner t_spender + amount)]
     ∧ store_of r
       = <[concat t_owner t_spender
             := allowance st t_owner t_spender + amount]> st
     ∧ allowance (store_of r) t_owner t_spender
       = allowance st t_owner t_spender + amount)
  ∧ (5 <= balance st t_owner → 3 <= balance (store_of r1) t_owner →
     result r1 = true ∧ result r2 = true
     ∧ allowance (store_of r2) t_owner t_spender
       = allowance st t_owner t_spender + 8
     ∧ (allowance st t_owner t_spender = 0 →
        allowance (store_of r2) t_owner t_spender = 8)).
Proof.
  intros Hw. cbv zeta. unfold balance, allowance.
  split; [|split].
  - intros Hlt. by rewrite DoApprove_over_balance.
  - intros Hge. rewrite DoApprove_success by done.
    unfold result, store_of, calls_of; simpl.
    by rewrite read_insert_eq.
  - intros H5. rewrite (DoApprove_success witness t_owner t_spender 5 st) by done.
    unfold result, store_of; simpl. intros H3.
    rewrite !(DoApprove_success witness t_owner t_spender 3) by done. simpl.
    rewrite !read_insert_eq. repeat split; lia.
Qed.

Lemma DoApprove_additive_capped_witness :
  let witness := λ a : bytes, bool_decide (a = "O") in
  let st : gmap bytes Z := <["O" := 5]> ∅ in
  let r1 := DoApprove witness "O" "S" 5 st in
  let r2 := DoApprove witness "O" "S" 3 (store_of r1) in
  result r1 = true ∧ result r2 = true ∧ allowance (store_of r2) "O" "S" = 8.
Proof.
  destruct (DoApprove_additive_capped (λ a : bytes, bool_decide (a = "O"))
              "O" "S" 5 (<["O" := 5]> ∅)) as (_ & _ & Htwice).
  { reflexivity. }
  destruct Htwice as (H1 & H2 & _ & H8).
  - by vm_compute.
  - by vm_compute.
  - split; [exact H1 | split; [exact H2 | apply H8; reflexivity]].
Defined.

(** ** Records left by the two transfer paths *)

(** A successful direct transfer of the whole balance does not always
    delete the record of the sender: [A] holds [5] and transfers [5] to
    [A]; the answer is [true], no [Delete] is made and the record
    stays. *)
Lemma DoTransfer_to_self_keeps_record :
  let st : gmap bytes Z := <["A" := 5]> ∅ in
  let r := DoTransfer (λ _, true) "A" "A" 5 st in
  result r = true ∧ balance st "A" = 5
  ∧ (SysDelete "A" ∉ calls_of r) ∧ writes (calls_of r) = []
  ∧ store_of r !! "A" = Some 5.
Proof.
  vm_compute. repeat split; try done.
  intros Hin. apply list_elem_of_singleton in Hin. discriminate.
Qed.

(** C9 (as the code has it). A successful direct transfer between two
    different addresses deletes the record of [t_from] when its balance
    is [amount], and only then; otherwise it writes the balance minus
    [amount]. A successful delegated transfer writes the allowance
    record, the record of [t_to] and the record of [t_from], in that
    order, deletes nothing, and the three records are in the storage it
    leaves, the one of [t_from] holding the difference even when it is
    zero. *)
Theorem transfer_paths_records witness t_from t_to amount st :
  let r := DoTransfer witness t_from t_to amount st in
  let rf := DoTransferFrom t_from t_to amount st in
  (t_from ≠ t_to → result r = true →
   (balance st t_from = amount →
    writes (calls_of r)
    = [SysDelete t_from; SysPut t_to (balance st t_to + amount)]
    ∧ store_of r !! t_from = None)
   ∧ (balance st t_from ≠ amount →
      writes (calls_of r)
      = [SysPut t_from (balance st t_from - amount);
         SysPut t_to (balance st t_to + amount)]
      ∧ store_of r !! t_from = Some (balance st t_from - amount)))
  ∧ (result rf = true →
     writes (calls_of rf)
     = [SysPut (concat t_from t_to) (allowance st t_from t_to - amount);
        SysPut t_to (balance st t_to + amount);
        SysPut t_from (balance st t_from - amount)]
     ∧ List.filter is_delete (calls_of rf) = []
     ∧ store_of rf !! t_from = Some (balance st t_from - amount)
     ∧ is_Some (store_of rf !! t_to)
     ∧ is_Some (store_of rf !! concat t_from t_to)).
Proof.
  cbv zeta. unfold balance, allowance. split.
  - intros Hne Hres.
    destruct (DoTransfer_true_inv _ _ _ _ _ Hne Hres) as (Hpos & Hw & Hge).
    split; intros Hbal.
    + rewrite DoTransfer_exact by done.
      unfold store_of, calls_of; simpl. split; [done|].
      by rewrite lookup_insert_ne, lookup_delete_eq.
    + rewrite DoTransfer_partial by (done || lia).
      unfold store_of, calls_of; simpl. split; [done|].
      by rewrite lookup_insert_ne, lookup_insert_eq.
  - intros Hres.
    destruct (DoTransferFrom_true_inv _ _ _ _ Hres) as (Hpos & Hal & Hge).
    rewrite DoTransferFrom_success by done.
    unfold store_of, calls_of; simpl.
    repeat split.
    + by rewrite lookup_insert_eq.
    + apply elem_of_dom. rewrite !dom_insert_L. set_solver.
    + apply elem_of_dom. rewrite !dom_insert_L. set_solver.
Qed.

Lemma transfer_paths_records_witness :
  let st : gmap bytes Z := <["AB" := 5]> (<["A" := 5]> ∅) in
  (store_of (DoTransfer (λ _, true) "A" "B" 5 st) !! "A" = None)
  ∧ (store_of (DoTransferFrom "A" "B" 5 st) !! "A" = Some 0).
Proof.
  destruct (transfer_paths_records (λ _, true) "A" "B" 5
              (<["AB" := 5]> (<["A" := 5]> ∅))) as [Hdirect Hfrom].
  split.
  - destruct Hdirect as [Hexact _]; [discriminate | reflexivity |].
    apply Hexact. reflexivity.
  - destruct Hfrom as (_ & _ & Hrec & _); [reflexivity |].
    exact Hrec.
Defined.

(** ** Delegated transfer from an account to itself *)

(** C10. A delegated transfer from an address to itself, with a
    positive [amount] covered by the allowance under
    [concat t_from t_from] and by the balance, answers [true] and leaves
    the balance at what it was minus [amount]: the record is first
    written with the balance plus [amount], then with the balance minus
    [amount], and the second write stands. No other record than the
    allowance one changes, so the amount is gone. *)
Theorem DoTransferFrom_to_self_overwrites t_from amount st :
  0 < amount → amount <= allowance st t_from t_from →
  amount <= balance st t_from →
  let r := DoTransferFrom t_from t_from amount st in
  result r = true
  ∧ balance (store_of r) t_from = balance st t_from - amount
  ∧ writes (calls_of r)
    = [SysPut (concat t_from t_from) (allowance st t_from t_from - amount);
       SysPut t_from (balance st t_from + amount);
       SysPut t_from (balance st t_from - amount)]
  ∧ ∀ k, k ≠ t_from → k ≠ concat t_from t_from →
      read (store_of r) k = read st k.
Proof.
  unfold balance, allowance. intros Hpos Hal Hbal. cbv zeta.
  rewrite DoTransferFrom_success by done.
  unfold result, store_of, calls_of; simpl.
  rewrite read_insert_eq. repeat split.
  intros k Hk Hk'. by rewrite !read_insert_ne.
Qed.

Lemma DoTransferFrom_to_self_overwrites_witness :
  let st : gmap bytes Z := <["AA" := 5]> (<["A" := 10]> ∅) in
  let r := DoTransferFrom "A" "A" 5 st in
  result r = true ∧ balance (store_of r) "A" = balance st "A" - 5.
Proof.
  destruct (DoTransferFrom_to_self_overwrites "A" 5
              (<["AA" := 5]> (<["A" := 10]> ∅))) as (Hres & Hbal & _).
  - lia.
  - by vm_compute.
  - by vm_compute.
  - split; [exact Hres | exact Hbal].
Defined.


(** * Further properties of the handlers *)

(** ** Keys built by [concat] *)

Lemma concat_empty_r a : concat a "" = a.
Proof.
  unfold concat. induction a as [|c a IH]; [done|].
  change (String c (String.append a "") = String c a). by rewrite IH.
Qed.

Lemma concat_assoc a b c : concat a (concat b c) = concat (concat a b) c.
Proof.
  unfold concat. induction a as [|x a IH]; [done|].
  change (String x (String.append a (String.append b c))
          = String x (String.append (String.append a b) c)).
  by rewrite IH.
Qed.

Lemma concat_length a b :
  String.length (concat a b) = (String.length a + String.length b)%nat.
Proof.
  unfold concat. induction a as [|c a IH]; [done|].
  change (S (String.length (String.append a b))
          = S (String.length a + String.length b)).
  by rewrite IH.
Qed.

Lemma concat_ne_l a b : b ≠ "" → concat a b ≠ a.
Proof.
  intros Hb Heq. apply (f_equal String.length) in Heq.
  rewrite concat_length in Heq. destruct b; [done|]. simpl in Heq. lia.
Qed.

Lemma concat_ne_r a b : a ≠ "" → concat a b ≠ b.
Proof.
  intros Ha Heq. apply (f_equal String.length) in Heq.
  rewrite concat_length in Heq. destruct a; [done|]. simpl in Heq. lia.
Qed.

Lemma concat_inj_same_length a a' b b' :
  String.length a = String.length a' →
  concat a b = concat a' b' → a = a' ∧ b = b'.
Proof.
  unfold concat. revert a'.
  induction a as [|x a IH]; intros [|y a'] Hlen Heq; try discriminate.
  - done.
  - change (String x (String.append a b) = String y (String.append a' b'))
      in Heq.
    injection Heq as -> Heq. injection Hlen as Hlen.
    destruct (IH a' Hlen Heq) as [-> ->]. done.
Qed.

(** ** Storages without a negative record *)

Lemma records_nonneg_empty : records_nonneg ∅.
Proof. intros k. by rewrite read_empty. Qed.

Lemma records_nonneg_insert (st : gmap bytes Z) k v :
  0 <= v → records_nonneg st → records_nonneg (<[k := v]> st).
Proof.
  intros Hv Hst k'. destruct (decide (k = k')) as [->|Hne].
  - by rewrite read_insert_eq.
  - rewrite read_insert_ne by done. apply Hst.
Qed.

Lemma records_nonneg_delete (st : gmap bytes Z) k :
  records_nonneg st → records_nonneg (delete k st).
Proof.
  intros Hst k'. destruct (decide (k = k')) as [->|Hne].
  - by rewrite read_delete_eq.
  - rewrite read_delete_ne by done. apply Hst.
Qed.

(** ** The allowance query *)

(** X1. Reading the allowance of a pair after an approval of that pair
    gives the allowance before plus [amount] when the approval was
    answered [true], and the allowance before when it was answered
    [false]; the query leaves the storage of the approval as it is. *)
Theorem GetAllowance_after_DoApprove witness t_owner t_spender amount st :
  let r := DoApprove witness t_owner t_spender amount st in
  let q := GetAllowance t_owner t_spender (store_of r) in
  result q = (if result r then allowance st t_owner t_spender + amount
              else allowance st t_owner t_spender)
  ∧ store_of q = store_of r.
Proof.
  cbv zeta. rewrite GetAllowance_run. unfold allowance.
  destruct (witness t_owner) eqn:Hw.
  2: { by rewrite DoApprove_unauthorized. }
  destruct (Z.ltb_spec (read st t_owner) amount) as [Hlt|Hge].
  { by rewrite DoApprove_over_balance. }
  rewrite DoApprove_success by done.
  unfold result, store_of; simpl. by rewrite read_insert_eq.
Qed.

(** X2. The allowance query only reads: it answers the record under
    [concat t_owner t_spender], [0] when the storage has no such key,
    leaves the storage as it is, writes nothing, notifies nothing and
    asks for no witness. *)
Theorem GetAllowance_read_only t_owner t_spender (st : gmap bytes Z) :
  let q := GetAllowance t_owner t_spender st in
  (st !! concat t_owner t_spender = None → result q = 0)
  ∧ (∀ v, st !! concat t_owner t_spender = Some v → result q = v)
  ∧ store_of q = st
  ∧ writes (calls_of q) = [] ∧ events (calls_of q) = []
  ∧ witness_checks (calls_of q) = [].
Proof.
  cbv zeta. rewrite GetAllowance_run.
  unfold result, store_of, calls_of, allowance, read; simpl.
  repeat split; try done.
  - by intros ->.
  - by intros v ->.
Qed.

Lemma GetAllowance_read_only_witness :
  let st : gmap bytes Z := <["AC" := 30]> (<["A" := 100]> ∅) in
  result (GetAllowance "A" "B" st) = 0 ∧ result (GetAllowance "A" "C" st) = 30.
Proof.
  split.
  - destruct (GetAllowance_read_only "A" "B"
                (<["AC" := 30]> (<["A" := 100]> ∅))) as [Hnone _].
    apply Hnone. reflexivity.
  - destruct (GetAllowance_read_only "A" "C"
                (<["AC" := 30]> (<["A" := 100]> ∅))) as (_ & Hsome & _).
    apply Hsome. reflexivity.
Defined.

(** ** Answers of [false] *)

(** X3. A delegated transfer answered [false], for whatever reason,
    leaves the storage as it was, writes and deletes nothing and
    notifies nothing. *)
Theorem DoTransferFrom_false_atomic t_from t_to amount st :
  let r := DoTransferFrom t_from t_to amount st in
  result r = false →
  store_of r = st ∧ writes (calls_of r) = [] ∧ events (calls_of r) = [].
Proof.
  cbv zeta.
  destruct (Z.leb_spec amount 0) as [Hle|Hpos].
  { by rewrite DoTransferFrom_nonpositive. }
  destruct (Z.ltb_spec (read st (concat t_from t_to)) amount) as [Hlt|Hge].
  { by rewrite DoTransferFrom_not_approved. }
  destruct (Z.ltb_spec (read st t_from) amount) as [Hlt|Hge'].
  { by rewrite DoTransferFrom_insufficient. }
  by rewrite DoTransferFrom_success.
Qed.

Lemma DoTransferFrom_false_atomic_witness :
  let st : gmap bytes Z := <["AB" := 50]> (<["A" := 10]> ∅) in
  let r := DoTransferFrom "A" "B" 20 st in
  store_of r = st ∧ writes (calls_of r) = [] ∧ events (calls_of r) = [].
Proof.
  apply (DoTransferFrom_false_atomic "A" "B" 20
           (<["AB" := 50]> (<["A" := 10]> ∅))).
  reflexivity.
Defined.

(** X4. An approval answered [false], the witness of the owner missing
    or the amount above the balance, leaves the storage as it was,
    writes nothing and notifies nothing; without the witness it does not
    even read the storage. *)
Theorem DoApprove_false_atomic witness t_owner t_spender amount st :
  let r := DoApprove witness t_owner t_spender amount st in
  (result r = false →
   store_of r = st ∧ writes (calls_of r) = [] ∧ events (calls_of r) = [])
  ∧ (witness t_owner = false →
     result r = false ∧ calls_of r = [SysCheckWitness t_owner]).
Proof.
  cbv zeta.
  destruct (witness t_owner) eqn:Hw.
  2: { by rewrite DoApprove_unauthorized. }
  destruct (Z.ltb_spec (read st t_owner) amount) as [Hlt|Hge].
  { by rewrite DoApprove_over_balance. }
  by rewrite DoApprove_success.
Qed.

Lemma DoApprove_false_atomic_witness :
  let st : gmap bytes Z := <["A" := 100]> ∅ in
  let r := DoApprove (λ _, false) "A" "B" 30 st in
  store_of r = st ∧ result r = false ∧ calls_of r = [SysCheckWitness "A"].
Proof.
  destruct (DoApprove_false_atomic (λ _, false) "A" "B" 30
              (<["A" := 100]> ∅)) as [Hatomic Hunauth].
  destruct Hatomic as (Hst & _); [reflexivity|].
  destruct Hunauth as (Hres & Hcalls); [reflexivity|].
  split; [exact Hst | split; [exact Hres | exact Hcalls]].
Defined.

(** ** Case analysis on the path of a run *)

Ltac transfer_paths witness t_from t_to amount st :=
  destruct (Z.leb_spec amount 0);
  [ rewrite (DoTransfer_nonpositive witness t_from t_to amount st) by done
  | destruct (witness t_from) eqn:?;
    [ destruct (decide (t_from = t_to));
      [ rewrite (DoTransfer_self witness t_from t_to amount st) by done
      | destruct (Z.ltb_spec (read st t_from) amount);
        [ rewrite (DoTransfer_insufficient witness t_from t_to amount st)
            by done
        | destruct (Z.eq_dec (read st t_from) amount);
          [ rewrite (DoTransfer_exact witness t_from t_to amount st) by done
          | rewrite (DoTransfer_partial witness t_from t_to amount st)
              by (done || lia) ] ] ]
    | rewrite (DoTransfer_unauthorized witness t_from t_to amount st)
        by done ] ].

Ltac transferFrom_paths t_from t_to amount st :=
  destruct (Z.leb_spec amount 0);
  [ rewrite (DoTransferFrom_nonpositive t_from t_to amount st) by done
  | destruct (Z.ltb_spec (read st (concat t_from t_to)) amount);
    [ rewrite (DoTransferFrom_not_approved t_from t_to amount st) by done
    | destruct (Z.ltb_spec (read st t_from) amount);
      [ rewrite (DoTransferFrom_insufficient t_from t_to amount st) by done
      | rewrite (DoTransferFrom_success t_from t_to amount st) by done ] ] ].

Ltac approve_paths witness t_owner t_spender amount st :=
  destruct (witness t_owner) eqn:?;
  [ destruct (Z.ltb_spec (read st t_owner) amount);
    [ rewrite (DoApprove_over_balance witness t_owner t_spender amount st)
        by done
    | rewrite (DoApprove_success witness t_owner t_spender amount st)
        by done ]
  | rewrite (DoApprove_unauthorized witness t_owner t_spender amount st)
      by done ].

(** ** Notifications and witness checks *)

(** X5. The notifications follow the answer. A delegated transfer makes
    the one notification [transfer (t_from, t_to, amount)] when it
    answers [true] and none otherwise; an approval makes the one
    notification [approval (t_owner, t_spender, amount)] when it answers
    [true] and none otherwise; a direct transfer makes the one
    [transfer] notification when it answers [true] between two different
    addresses and none otherwise. *)
Theorem events_follow_answer witness a b amount st :
  let r := DoTransfer witness a b amount st in
  let rf := DoTransferFrom a b amount st in
  let ra := DoApprove witness a b amount st in
  events (calls_of r)
  = (if result r && negb (bool_decide (a = b))
     then [SysNotify "transfer" a b amount] else [])
  ∧ events (calls_of rf)
    = (if result rf then [SysNotify "transfer" a b amount] else [])
  ∧ events (calls_of ra)
    = (if result ra then [SysNotify "approval" a b amount] else []).
Proof.
  cbv zeta. split; [|split].
  - transfer_paths witness a b amount st;
      unfold result, calls_of; simpl; try done.
    + by rewrite bool_decide_eq_true_2.
    + by rewrite bool_decide_eq_false_2.
    + by rewrite bool_decide_eq_false_2.
  - transferFrom_paths a b amount st; done.
  - approve_paths witness a b amount st; done.
Qed.

(** X6. A direct transfer asks for the witness of [t_from] once when
    the amount is positive and not at all when it is not; an approval
    asks for the witness of [t_owner] once, whatever the arguments; the
    allowance query asks for none. No handler asks for any other
    witness. *)
Theorem witness_checks_per_handler witness a b amount st :
  witness_checks (calls_of (DoTransfer witness a b amount st))
  = (if amount <=? 0 then [] else [SysCheckWitness a])
  ∧ witness_checks (calls_of (DoApprove witness a b amount st))
    = [SysCheckWitness a]
  ∧ witness_checks (calls_of (GetAllowance a b st)) = [].
Proof.
  split; [|split].
  - transfer_paths witness a b amount st;
      destruct (Z.leb_spec amount 0); try lia; done.
  - approve_paths witness a b amount st; done.
  - done.
Qed.

(** ** Records a run leaves alone *)

(** X7. A direct transfer changes no record but those of [t_from] and
    [t_to]; a delegated transfer none but those of [t_from], [t_to] and
    [concat t_from t_to]; an approval none but the one under
    [concat t_owner t_spender]. This for every run, answered [true] or
    [false]. *)
Theorem handlers_frame witness a b amount st (k : bytes) :
  (k ≠ a → k ≠ b →
   store_of (DoTransfer witness a b amount st) !! k = st !! k)
  ∧ (k ≠ a → k ≠ b → k ≠ concat a b →
     store_of (DoTransferFrom a b amount st) !! k = st !! k)
  ∧ (k ≠ concat a b →
     store_of (DoApprove witness a b amount st) !! k = st !! k).
Proof.
  split; [|split].
  - intros Ha Hb.
    transfer_paths witness a b amount st; unfold store_of; simpl; try done.
    + by rewrite lookup_insert_ne, lookup_delete_ne.
    + by rewrite !lookup_insert_ne.
  - intros Ha Hb Hkey.
    transferFrom_paths a b amount st; unfold store_of; simpl; try done.
    by rewrite !lookup_insert_ne.
  - intros Hkey.
    approve_paths witness a b amount st; unfold store_of; simpl; try done.
    by rewrite lookup_insert_ne.
Qed.

Lemma handlers_frame_witness :
  let st : gmap bytes Z := <["C" := 7]> (<["AB" := 5]> (<["A" := 10]> ∅)) in
  store_of (DoTransfer (λ _, true) "A" "B" 4 st) !! "C" = Some 7
  ∧ store_of (DoTransferFrom "A" "B" 4 st) !! "C" = Some 7
  ∧ store_of (DoApprove (λ _, true) "A" "B" 4 st) !! "C" = Some 7.
Proof.
  destruct (handlers_frame (λ _, true) "A" "B" 4
              (<["C" := 7]> (<["AB" := 5]> (<["A" := 10]> ∅))) "C")
    as (Ht & Hf & Ha).
  split; [|split].
  - rewrite Ht; [reflexivity | discriminate | discriminate].
  - rewrite Hf; [reflexivity | discriminate | discriminate | discriminate].
  - rewrite Ha; [reflexivity | discriminate].
Defined.

(** X8. On a storage without a negative record, a direct transfer and a
    delegated transfer leave a storage without a negative record,
    whatever their arguments, and so does an approval of an amount that
    is not negative. *)
Theorem records_stay_nonneg witness a b amount st :
  records_nonneg st →
  records_nonneg (store_of (DoTransfer witness a b amount st))
  ∧ records_nonneg (store_of (DoTransferFrom a b amount st))
  ∧ (0 <= amount →
     records_nonneg (store_of (DoApprove witness a b amount st))).
Proof.
  intros Hst. split; [|split].
  - transfer_paths witness a b amount st; unfold store_of; simpl; try done.
    + apply records_nonneg_insert; [|by apply records_nonneg_delete].
      specialize (Hst b). lia.
    + apply records_nonneg_insert; [specialize (Hst b); lia|].
      apply records_nonneg_insert; [lia | done].
  - transferFrom_paths a b amount st; unfold store_of; simpl; try done.
    apply records_nonneg_insert; [lia|].
    apply records_nonneg_insert; [specialize (Hst b); lia|].
    apply records_nonneg_insert; [lia | done].
  - intros Hamount.
    approve_paths witness a b amount st; unfold store_of; simpl; try done.
    apply records_nonneg_insert; [|done].
    specialize (Hst (concat a b)). lia.
Qed.

Lemma records_stay_nonneg_witness :
  let st : gmap bytes Z := <["AB" := 5]> (<["A" := 10]> ∅) in
  records_nonneg (store_of (DoTransfer (λ _, true) "A" "B" 10 st))
  ∧ records_nonneg (store_of (DoTransferFrom "A" "B" 5 st))
  ∧ records_nonneg (store_of (DoApprove (λ _, true) "A" "B" 0 st)).
Proof.
  destruct (records_stay_nonneg (λ _, true) "A" "B" 10
              (<["AB" := 5]> (<["A" := 10]> ∅))) as (Ht & _ & _).
  { apply records_nonneg_insert; [lia|].
    apply records_nonneg_insert; [lia | apply records_nonneg_empty]. }
  destruct (records_stay_nonneg (λ _, true) "A" "B" 5
              (<["AB" := 5]> (<["A" := 10]> ∅))) as (_ & Hf & _).
  { apply records_nonneg_insert; [lia|].
    apply records_nonneg_insert; [lia | apply records_nonneg_empty]. }
  destruct (records_stay_nonneg (λ _, true) "A" "B" 0
              (<["AB" := 5]> (<["A" := 10]> ∅))) as (_ & _ & Ha).
  { apply records_nonneg_insert; [lia|].
    apply records_nonneg_insert; [lia | apply records_nonneg_empty]. }
  split; [exact Ht | split; [exact Hf | apply Ha; lia]].
Defined.

(** ** Delegated transfer between two accounts *)

(** X9. A delegated transfer answered [true] between two different,
    non-empty addresses takes [amount] out of the balance of [t_from],
    adds it to the balance of [t_to] and takes it out of the allowance
    under [concat t_from t_to]; the balances of any set of accounts
    that holds both addresses and not the allowance key sum to what
    they did. *)
Theorem DoTransferFrom_moves_amount t_from t_to amount st :
  t_from ≠ "" → t_to ≠ "" → t_from ≠ t_to →
  let r := DoTransferFrom t_from t_to amount st in
  result r = true →
  balance (store_of r) t_from + amount = balance st t_from
  ∧ balance (store_of r) t_to = balance st t_to + amount
  ∧ allowance (store_of r) t_from t_to + amount = allowance st t_from t_to
  ∧ ∀ accounts, NoDup accounts → t_from ∈ accounts → t_to ∈ accounts →
      concat t_from t_to ∉ accounts →
      supply_over accounts (store_of r) = supply_over accounts st.
Proof.
  intros Hf Ht Hne. cbv zeta. intros Hres.
  destruct (DoTransferFrom_true_inv _ _ _ _ Hres) as (Hpos & Hal & Hge).
  pose proof (concat_ne_l t_from t_to Ht) as Hkf.
  pose proof (concat_ne_r t_from t_to Hf) as Hkt.
  rewrite DoTransferFrom_success by done.
  unfold store_of, balance, allowance; simpl.
  set (key := concat t_from t_to) in *.
  set (st1 := <[key := read st key - amount]> st).
  set (st2 := <[t_to := read st t_to + amount]> st1).
  rewrite read_insert_eq.
  rewrite (read_insert_ne st2 t_from t_to) by done.
  rewrite (read_insert_ne st2 t_from key) by done.
  unfold st2 at 1 2. rewrite read_insert_eq, read_insert_ne by done.
  unfold st1 at 1. rewrite read_insert_eq.
  repeat split; try lia.
  intros accounts Hnd Hinf Hint Hkey.
  rewrite (supply_over_change accounts st2 _ t_from); try done.
  2: { intros a Ha. unfold balance. by rewrite read_insert_ne. }
  rewrite (supply_over_change accounts st1 st2 t_to); try done.
  2: { intros a Ha. unfold balance, st2. by rewrite read_insert_ne. }
  rewrite (supply_over_frame accounts st st1).
  2: { intros a Ha. unfold balance, st1. rewrite read_insert_ne; [done|].
       intros ->. done. }
  unfold balance. rewrite read_insert_eq.
  unfold st2. rewrite read_insert_eq, read_insert_ne by done.
  unfold st1. rewrite !read_insert_ne by done. lia.
Qed.

Lemma DoTransferFrom_moves_amount_witness :
  let st : gmap bytes Z := <["AB" := 30]> (<["A" := 100]> ∅) in
  let r := DoTransferFrom "A" "B" 30 st in
  balance (store_of r) "A" + 30 = balance st "A"
  ∧ balance (store_of r) "B" = balance st "B" + 30
  ∧ allowance (store_of r) "A" "B" + 30 = allowance st "A" "B"
  ∧ ∀ accounts, NoDup accounts → "A" ∈ accounts → "B" ∈ accounts →
      concat "A" "B" ∉ accounts →
      supply_over accounts (store_of r) = supply_over accounts st.
Proof.
  apply (DoTransferFrom_moves_amount "A" "B" 30
           (<["AB" := 30]> (<["A" := 100]> ∅)));
    [discriminate | discriminate | discriminate | reflexivity].
Defined.

(** ** Keys that coincide *)

(** X10. The allowance record of the pair [(t_owner, "")] is the balance
    record of [t_owner]: an approval of the empty spender, with the
    witness of the owner and an amount the balance covers, answers
    [true] and adds [amount] to the balance of the owner. *)
Theorem DoApprove_empty_spender_adds_balance witness t_owner amount st :
  witness t_owner = true → amount <= balance st t_owner →
  let r := DoApprove witness t_owner "" amount st in
  result r = true
  ∧ balance (store_of r) t_owner = balance st t_owner + amount
  ∧ ∀ accounts, NoDup accounts → t_owner ∈ accounts →
      supply_over accounts (store_of r) = supply_over accounts st + amount.
Proof.
  intros Hw Hbal. unfold balance in Hbal. cbv zeta.
  rewrite DoApprove_success by done.
  unfold result, store_of, balance; simpl.
  rewrite concat_empty_r, read_insert_eq. repeat split.
  intros accounts Hnd Hin.
  rewrite (supply_over_change accounts st _ t_owner); try done.
  - unfold balance. rewrite read_insert_eq. lia.
  - intros a Ha. unfold balance. by rewrite read_insert_ne.
Qed.

Lemma DoApprove_empty_spender_adds_balance_witness :
  let st : gmap bytes Z := <["A" := 10]> ∅ in
  let r := DoApprove (λ _, true) "A" "" 10 st in
  result r = true ∧ balance (store_of r) "A" = 20.
Proof.
  destruct (DoApprove_empty_spender_adds_balance (λ _, true) "A" 10
              (<["A" := 10]> ∅)) as (Hres & Hbal & _).
  - reflexivity.
  - by vm_compute.
  - split; [exact Hres | exact Hbal].
Defined.

(** X11. The allowance a delegated transfer to the empty address tests
    is the balance of [t_from] itself: with a positive [amount] that
    this balance covers, [DoTransferFrom t_from "" amount] answers
    [true] whatever the approvals made, asks for no witness, and moves
    [amount] from [t_from] to the empty address. *)
Theorem DoTransferFrom_to_empty_unapproved t_from amount st :
  t_from ≠ "" → 0 < amount → amount <= balance st t_from →
  let r := DoTransferFrom t_from "" amount st in
  result r = true
  ∧ balance (store_of r) t_from = balance st t_from - amount
  ∧ balance (store_of r) "" = balance st "" + amount
  ∧ witness_checks (calls_of r) = [].
Proof.
  intros Hf Hpos Hbal. unfold balance in Hbal. cbv zeta.
  rewrite DoTransferFrom_success; try done.
  2: { by rewrite concat_empty_r. }
  unfold result, store_of, calls_of, balance; simpl.
  rewrite read_insert_eq, read_insert_ne, read_insert_eq by done.
  done.
Qed.

Lemma DoTransferFrom_to_empty_unapproved_witness :
  let st : gmap bytes Z := <["A" := 100]> ∅ in
  let r := DoTransferFrom "A" "" 100 st in
  allowance st "A" "B" = 0
  ∧ result r = true
  ∧ balance (store_of r) "A" = balance st "A" - 100
  ∧ balance (store_of r) "" = balance st "" + 100
  ∧ witness_checks (calls_of r) = [].
Proof.
  split; [reflexivity|].
  apply (DoTransferFrom_to_empty_unapproved "A" 100 (<["A" := 100]> ∅)).
  - discriminate.
  - lia.
  - by vm_compute.
Defined.

(** X12. Two pairs whose concatenations agree share one allowance
    record: the allowance of [(a, concat b c)] is that of
    [(concat a b, c)], so an approval by [a] of the spender
    [concat b c] that answers [true] adds [amount] to the allowance of
    the pair [(concat a b, c)]. *)
Theorem allowance_record_shared witness a b c amount st :
  allowance st a (concat b c) = allowance st (concat a b) c
  ∧ (witness a = true → amount <= balance st a →
     let r := DoApprove witness a (concat b c) amount st in
     result r = true
     ∧ allowance (store_of r) (concat a b) c
       = allowance st (concat a b) c + amount).
Proof.
  unfold allowance, balance. rewrite concat_assoc. split; [done|].
  intros Hw Hbal. cbv zeta.
  rewrite DoApprove_success by done.
  unfold result, store_of; simpl.
  by rewrite <- concat_assoc, read_insert_eq.
Qed.

Lemma allowance_record_shared_witness :
  let st : gmap bytes Z := <["A" := 10]> ∅ in
  let r := DoApprove (λ a : bytes, bool_decide (a = "A")) "A" "BC" 10 st in
  result r = true ∧ allowance (store_of r) "AB" "C" = 10.
Proof.
  destruct (allowance_record_shared (λ a : bytes, bool_decide (a = "A"))
              "A" "B" "C" 10 (<["A" := 10]> ∅)) as [_ Happrove].
  destruct Happrove as [Hres Hal].
  - reflexivity.
  - by vm_compute.
  - split; [exact Hres | exact Hal].
Defined.

(** X13. An approval changes the allowance of no other pair whose
    owner is as long as [t_owner]: in particular of no other spender of
    [t_owner], and, among addresses of one length, of no other pair at
    all. *)
Theorem DoApprove_other_pairs witness t_owner t_spender amount st o s :
  String.length o = String.length t_owner →
  (o, s) ≠ (t_owner, t_spender) →
  let r := DoApprove witness t_owner t_spender amount st in
  allowance (store_of r) o s = allowance st o s.
Proof.
  intros Hlen Hne. cbv zeta. unfold allowance.
  approve_paths witness t_owner t_spender amount st;
    unfold store_of; simpl; try done.
  rewrite read_insert_ne; [done|].
  intros Heq. symmetry in Heq.
  destruct (concat_inj_same_length _ _ _ _ Hlen Heq) as [-> ->]. done.
Qed.

Lemma DoApprove_other_pairs_witness :
  let st : gmap bytes Z := <["AC" := 4]> (<["A" := 10]> ∅) in
  let r := DoApprove (λ _, true) "A" "B" 10 st in
  allowance (store_of r) "A" "C" = allowance st "A" "C".
Proof.
  apply (DoApprove_other_pairs (λ _, true) "A" "B" 10
           (<["AC" := 4]> (<["A" := 10]> ∅)) "A" "C").
  - reflexivity.
  - discriminate.
Defined.

(** ** Handlers run one after the other *)

Ltac simpl_reads :=
  repeat first
    [ rewrite read_insert_eq | rewrite read_delete_eq
    | rewrite read_insert_ne by done | rewrite read_delete_ne by done ].

(** X14. An approval followed by the delegated transfer of the same
    amount to the approved spender: with the witness of the owner, a
    positive [amount] the balance covers, an allowance that was not
    negative, and two different non-empty addresses, both calls answer
    [true], the allowance is back to what it was and [amount] has moved
    from the owner to the spender. *)
Theorem DoApprove_then_DoTransferFrom witness t_owner t_spender amount st :
  witness t_owner = true →
  0 < amount → amount <= balance st t_owner →
  0 <= allowance st t_owner t_spender →
  t_owner ≠ "" → t_spender ≠ "" → t_owner ≠ t_spender →
  let r1 := DoApprove witness t_owner t_spender amount st in
  let r2 := DoTransferFrom t_owner t_spender amount (store_of r1) in
  result r1 = true ∧ result r2 = true
  ∧ allowance (store_of r2) t_owner t_spender
    = allowance st t_owner t_spender
  ∧ balance (store_of r2) t_owner = balance st t_owner - amount
  ∧ balance (store_of r2) t_spender = balance st t_spender + amount.
Proof.
  unfold balance, allowance. intros Hw Hpos Hbal Hal Ho Hs Hne. cbv zeta.
  pose proof (concat_ne_l t_owner t_spender Hs) as Hko.
  pose proof (concat_ne_r t_owner t_spender Ho) as Hks.
  rewrite DoApprove_success by done.
  unfold result, store_of; simpl.
  set (st1 := <[concat t_owner t_spender
                  := read st (concat t_owner t_spender) + amount]> st).
  assert (read st1 (concat t_owner t_spender)
          = read st (concat t_owner t_spender) + amount) as Hal1
    by (unfold st1; by simpl_reads).
  assert (read st1 t_owner = read st t_owner) as Ho1
    by (unfold st1; by simpl_reads).
  assert (read st1 t_spender = read st t_spender) as Hs1
    by (unfold st1; by simpl_reads).
  rewrite (DoTransferFrom_success t_owner t_spender amount st1) by lia.
  simpl.
  assert (t_owner ≠ concat t_owner t_spender) by done.
  assert (t_spender ≠ concat t_owner t_spender) by done.
  simpl_reads. repeat split; lia.
Qed.

Lemma DoApprove_then_DoTransferFrom_witness :
  let st : gmap bytes Z := <["A" := 100]> ∅ in
  let r1 := DoApprove (λ a : bytes, bool_decide (a = "A")) "A" "C" 30 st in
  let r2 := DoTransferFrom "A" "C" 30 (store_of r1) in
  result r1 = true ∧ result r2 = true
  ∧ allowance (store_of r2) "A" "C" = allowance st "A" "C"
  ∧ balance (store_of r2) "A" = balance st "A" - 30
  ∧ balance (store_of r2) "C" = balance st "C" + 30.
Proof.
  apply (DoApprove_then_DoTransferFrom
           (λ a : bytes, bool_decide (a = "A")) "A" "C" 30 (<["A" := 100]> ∅)).
  - reflexivity.
  - lia.
  - by vm_compute.
  - by vm_compute.
  - discriminate.
  - discriminate.
  - discriminate.
Defined.

(** X15. A direct transfer and the direct transfer back: between two
    different addresses, with both witnesses, a positive [amount] the
    balance of the first covers and a balance of the second that is not
    negative, both calls answer [true] and every key reads as it did
    before the two. *)
Theorem DoTransfer_there_and_back witness a b amount st :
  a ≠ b → witness a = true → witness b = true →
  0 < amount → amount <= balance st a → 0 <= balance st b →
  let r1 := DoTransfer witness a b amount st in
  let r2 := DoTransfer witness b a amount (store_of r1) in
  result r1 = true ∧ result r2 = true
  ∧ ∀ k, read (store_of r2) k = read st k.
Proof.
  unfold balance. intros Hne Hwa Hwb Hpos Hbal Hb. cbv zeta.
  assert (b ≠ a) as Hne' by done.
  assert (∀ st1 : gmap bytes Z,
    read st1 b = read st b + amount → read st1 a = read st a - amount →
    (∀ k, k ≠ a → k ≠ b → read st1 k = read st k) →
    result (DoTransfer witness b a amount st1) = true
    ∧ ∀ k, read (store_of (DoTransfer witness b a amount st1)) k
           = read st k) as Hback.
  { intros st1 Hb1 Ha1 Hother.
    destruct (Z.eq_dec (read st1 b) amount) as [Heq|Hneq].
    - rewrite DoTransfer_exact by done. unfold result, store_of; simpl.
      split; [done|]. intros k.
      destruct (decide (k = a)) as [->|Hka]; [simpl_reads; lia|].
      destruct (decide (k = b)) as [->|Hkb]; [simpl_reads; lia|].
      simpl_reads. by apply Hother.
    - rewrite DoTransfer_partial by (done || lia).
      unfold result, store_of; simpl.
      split; [done|]. intros k.
      destruct (decide (k = a)) as [->|Hka]; [simpl_reads; lia|].
      destruct (decide (k = b)) as [->|Hkb]; [simpl_reads; lia|].
      simpl_reads. by apply Hother. }
  destruct (Z.eq_dec (read st a) amount) as [Heq|Hneq].
  - rewrite (DoTransfer_exact witness a b amount st) by done.
    unfold result at 1, store_of at 1 2; simpl. split; [done|].
    apply Hback.
    + by simpl_reads.
    + simpl_reads. lia.
    + intros k Hka Hkb. by simpl_reads.
  - rewrite (DoTransfer_partial witness a b amount st) by (done || lia).
    unfold result at 1, store_of at 1 2; simpl. split; [done|].
    apply Hback.
    + by simpl_reads.
    + by simpl_reads.
    + intros k Hka Hkb. by simpl_reads.
Qed.

Lemma DoTransfer_there_and_back_witness :
  let st : gmap bytes Z := <["A" := 40]> ∅ in
  let r1 := DoTransfer (λ _, true) "A" "B" 40 st in
  let r2 := DoTransfer (λ _, true) "B" "A" 40 (store_of r1) in
  result r1 = true ∧ result r2 = true
  ∧ ∀ k, read (store_of r2) k = read st k.
Proof.
  apply (DoTransfer_there_and_back (λ _, true) "A" "B" 40 (<["A" := 40]> ∅)).
  - discriminate.
  - reflexivity.
  - reflexivity.
  - lia.
  - by vm_compute.
  - by vm_compute.
Defined.

(** ** The entry point *)

Ltac unfold_Main :=
  unfold Main; repeat case_bool_decide; simplify_eq.

(** X16. [Main] answers the string ["unknown operation"], without a
    call into the host and with the storage as it was, to every
    operation that is not one of [transfer], [transferFrom], [approve]
    and [allowance], whatever the arguments; to these four it never
    answers a string. *)
Theorem Main_unknown_operation witness (item : Type)
    (as_bytes : item → bytes) (as_int : item → Z)
    (operation : string) (args : list item) st :
  let known := ["transfer"; "transferFrom"; "approve"; "allowance"] in
  let r := Main witness item as_bytes as_int operation args st in
  (operation ∉ known → r = (OutStr "unknown operation", st, []))
  ∧ (operation ∈ known → ∀ s, result r ≠ OutStr s).
Proof.
  cbv zeta. split.
  - intros Hnot. rewrite !not_elem_of_cons in Hnot.
    destruct Hnot as (? & ? & ? & ? & _). by unfold_Main.
  - intros Hin s. rewrite !elem_of_cons in Hin.
    unfold mbind, contract_bind, mret, contract_ret.
    destruct Hin as [->|[->|[->|[->|Hin]]]];
      [ | | | | by apply elem_of_nil in Hin];
      unfold_Main; destruct args as [|x [|y [|z [|u l]]]]; try done.
    + unfold mbind, contract_bind, mret, contract_ret.
      by destruct (DoTransfer _ _ _ _ _) as [[? ?] ?].
    + unfold mbind, contract_bind, mret, contract_ret.
      by destruct (DoTransferFrom _ _ _ _) as [[? ?] ?].
    + unfold mbind, contract_bind, mret, contract_ret.
      by destruct (DoApprove _ _ _ _ _) as [[? ?] ?].
Qed.

Lemma Main_unknown_operation_witness :
  let st : gmap bytes Z := <["A" := 100]> ∅ in
  Main (λ _, true) (bytes * Z) fst snd "balanceOf" [("A", 0)] st
  = (OutStr "unknown operation", st, []).
Proof.
  destruct (Main_unknown_operation (λ _, true) (bytes * Z) fst snd
              "balanceOf" [("A", 0)] (<["A" := 100]> ∅)) as [Hunknown _].
  apply Hunknown.
  rewrite !not_elem_of_cons. repeat split; try discriminate.
  apply not_elem_of_nil.
Defined.

(** X17. A call of [transfer], [transferFrom] or [approve] with other
    than three arguments, or of [allowance] with other than two, is
    answered [false] before any handler runs: no call into the host,
    storage as it was. *)
Theorem Main_wrong_arity witness (item : Type)
    (as_bytes : item → bytes) (as_int : item → Z)
    (operation : string) (args : list item) st :
  let r := Main witness item as_bytes as_int operation args st in
  (operation ∈ ["transfer"; "transferFrom"; "approve"] →
   length args ≠ 3%nat → r = (OutBool false, st, []))
  ∧ (operation = "allowance" →
     length args ≠ 2%nat → r = (OutBool false, st, [])).
Proof.
  cbv zeta. split.
  - intros Hin Hlen. rewrite !elem_of_cons in Hin.
    destruct Hin as [->|[->|[->|Hin]]]; [ | | | by apply elem_of_nil in Hin];
      unfold_Main; by destruct args as [|x [|y [|z [|u l]]]].
  - intros -> Hlen.
    unfold_Main; by destruct args as [|x [|y [|z l]]].
Qed.

Lemma Main_wrong_arity_witness :
  let st : gmap bytes Z := <["A" := 100]> ∅ in
  Main (λ _, true) (bytes * Z) fst snd "transfer" [("A", 0); ("B", 0)] st
  = (OutBool false, st, [])
  ∧ Main (λ _, true) (bytes * Z) fst snd "allowance"
      [("A", 0); ("B", 0); ("C", 0)] st
    = (OutBool false, st, []).
Proof.
  split.
  - destruct (Main_wrong_arity (λ _, true) (bytes * Z) fst snd
                "transfer" [("A", 0); ("B", 0)] (<["A" := 100]> ∅))
      as [Hthree _].
    apply Hthree; [|discriminate].
    apply list_elem_of_here.
  - destruct (Main_wrong_arity (λ _, true) (bytes * Z) fst snd
                "allowance" [("A", 0); ("B", 0); ("C", 0)]
                (<["A" := 100]> ∅)) as [_ Htwo].
    apply Htwo; [reflexivity | discriminate].
Defined.

(** X18. Whatever the operation and the arguments, a call of [Main]
    that does not answer [true] leaves the storage as it was, writes and
    deletes nothing and notifies nothing. *)
Theorem Main_not_true_atomic witness (item : Type)
    (as_bytes : item → bytes) (as_int : item → Z)
    (operation : string) (args : list item) st :
  let r := Main witness item as_bytes as_int operation args st in
  result r ≠ OutBool true →
  store_of r = st ∧ writes (calls_of r) = [] ∧ events (calls_of r) = [].
Proof.
  cbv zeta. unfold_Main; try done.
  - destruct args as [|x [|y [|z [|u l]]]]; try done.
    unfold mbind, contract_bind, mret, contract_ret.
    transfer_paths witness (as_bytes x) (as_bytes y) (as_int z) st; done.
  - destruct args as [|x [|y [|z [|u l]]]]; try done.
    unfold mbind, contract_bind, mret, contract_ret.
    transferFrom_paths (as_bytes x) (as_bytes y) (as_int z) st; done.
  - destruct args as [|x [|y [|z [|u l]]]]; try done.
    unfold mbind, contract_bind, mret, contract_ret.
    approve_paths witness (as_bytes x) (as_bytes y) (as_int z) st; done.
  - by destruct args as [|x [|y [|z l]]].
Qed.

Lemma Main_not_true_atomic_witness :
  let st : gmap bytes Z := <["A" := 100]> ∅ in
  let r := Main (λ _, false) (bytes * Z) fst snd "transfer"
             [("A", 0); ("B", 0); ("", 40)] st in
  store_of r = st ∧ writes (calls_of r) = [] ∧ events (calls_of r) = [].
Proof.
  apply (Main_not_true_atomic (λ _, false) (bytes * Z) fst snd "transfer"
           [("A", 0); ("B", 0); ("", 40)] (<["A" := 100]> ∅)).
  discriminate.
Defined.

(** ** When the handlers answer [true] *)

(** X19. The answers of the three handlers, in full: a direct transfer
    answers [true] exactly when the amount is positive, the witness of
    [t_from] is there, and either the two addresses are the same or the
    balance of [t_from] covers the amount; a delegated transfer exactly
    when the amount is positive and both the record under
    [concat t_from t_to] and the balance of [t_from] cover it; an
    approval exactly when the witness of the owner is there and the
    balance of the owner covers the amount. *)
Theorem answers_characterised witness a b amount st :
  (result (DoTransfer witness a b amount st) = true
   ↔ 0 < amount ∧ witness a = true ∧ (a = b ∨ amount <= balance st a))
  ∧ (result (DoTransferFrom a b amount st) = true
     ↔ 0 < amount ∧ amount <= allowance st a b ∧ amount <= balance st a)
  ∧ (result (DoApprove witness a b amount st) = true
     ↔ witness a = true ∧ amount <= balance st a).
Proof.
  unfold balance, allowance. split; [|split].
  - transfer_paths witness a b amount st; unfold result; simpl;
      intuition (try congruence; try lia).
  - transferFrom_paths a b amount st; unfold result; simpl;
      intuition (try congruence; try lia).
  - approve_paths witness a b amount st; unfold result; simpl;
      intuition (try congruence; try lia).
Qed.

(** X20. An allowance cannot be drawn twice: after a delegated transfer
    answered [true] between two different non-empty addresses, a second
    delegated transfer between the same two, of more than what the
    first left of the allowance, is answered [false] and changes
    nothing. *)
Theorem DoTransferFrom_allowance_spent t_from t_to amount amount' st :
  t_from ≠ "" → t_to ≠ "" → t_from ≠ t_to →
  let r1 := DoTransferFrom t_from t_to amount st in
  let r2 := DoTransferFrom t_from t_to amount' (store_of r1) in
  result r1 = true →
  allowance st t_from t_to - amount < amount' →
  result r2 = false ∧ store_of r2 = store_of r1.
Proof.
  intros Hf Ht Hne. cbv zeta. unfold allowance. intros Hres Hover.
  destruct (DoTransferFrom_true_inv _ _ _ _ Hres) as (Hpos & Hal & Hge).
  pose proof (concat_ne_l t_from t_to Ht) as Hkf.
  pose proof (concat_ne_r t_from t_to Hf) as Hkt.
  rewrite (DoTransferFrom_success t_from t_to amount st) by done.
  change (store_of (true, ?s, ?l)) with s.
  set (st1 := <[t_from := _]> _).
  assert (read st1 (concat t_from t_to)
          = read st (concat t_from t_to) - amount) as Hal1.
  { unfold st1.
    assert (t_from ≠ concat t_from t_to) by done.
    assert (t_to ≠ concat t_from t_to) by done.
    by simpl_reads. }
  destruct (Z.leb_spec amount' 0) as [Hle'|Hpos'].
  - by rewrite (DoTransferFrom_nonpositive t_from t_to amount' st1).
  - rewrite (DoTransferFrom_not_approved t_from t_to amount' st1);
      [done | done | lia].
Qed.

Lemma DoTransferFrom_allowance_spent_witness :
  let st : gmap bytes Z := <["AB" := 30]> (<["A" := 100]> ∅) in
  let r1 := DoTransferFrom "A" "B" 30 st in
  let r2 := DoTransferFrom "A" "B" 1 (store_of r1) in
  result r2 = false ∧ store_of r2 = store_of r1.
Proof.
  apply (DoTransferFrom_allowance_spent "A" "B" 30 1
           (<["AB" := 30]> (<["A" := 100]> ∅)));
    [discriminate | discriminate | discriminate | reflexivity | reflexivity].
Defined.
